(** * CoastProc notebooks: run-up analysis and climate correlations

    A shallow embedding of the numerical cells of two notebooks,

    - [notebooks/WaveClim/CycloneYasi.ipynb] (run-up part): the function
      [iribarrenNb], the cell storing its result in [df["iribarren"]], and
      the plotting cells that split the rows into three beach types;
    - [notebooks/WaveClim/WaveAnalysis.ipynb]: the two cells computing
      Pearson correlations between climate indices and wave anomalies.

    Number model.  The notebooks compute on float64 arrays (pandas Series
    over numpy).  A float64 is modelled by [np_float]: a real number, or one
    of the IEEE special values NaN, +inf, -inf.  The special values follow
    IEEE 754 as numpy applies it under its default error state (division by
    zero and invalid operations give inf or NaN and a warning, never an
    exception).  Rounding of finite results is idealised: finite arithmetic
    is that of the real numbers, [np.pi] is the real number pi, and zero is
    unsigned (it behaves as +0.0). *)

From Stdlib Require Import Reals Lra Lia List String Bool Arith ZArith.
From Stdlib Require Import Machin Sorted.
Import ListNotations.

Open Scope R_scope.

(** * Python outcomes *)

Module Py.

(** What a Python call can do: return a value or raise.  [InvalidArgument]
    and [MalformedRecord] are the error kinds the specification names;
    the others are the built-in exceptions the modelled calls can raise. *)
Inductive exn : Type :=
| InvalidArgument
| MalformedRecord
| AttributeError
| KeyError
| TypeError
| ValueError.

Inductive outcome (A : Type) : Type :=
| Returns (a : A)
| Raises (e : exn).

Arguments Returns {A} a.
Arguments Raises {A} e.

Definition bind {A B : Type} (m : outcome A) (k : A -> outcome B) : outcome B :=
  match m with
  | Returns a => k a
  | Raises e => Raises e
  end.

Definition raises {A : Type} (m : outcome A) (e : exn) : Prop := m = Raises e.


End Py.

Import Py.

Notation "x <- m ;; k" := (bind m (fun x => k))
  (at level 61, m at next level, right associativity).

(** * numpy scalars and arrays *)

Module NumPy.

Inductive np_float : Type :=
| NaN
| PInf
| NInf
| Fin (r : R).

Definition is_neg (r : R) : bool := if Rlt_dec r 0 then true else false.
Definition is_zero (r : R) : bool := if Req_dec_T r 0 then true else false.

(** The infinity of the given sign. *)
Definition inf (negative : bool) : np_float := if negative then NInf else PInf.

Definition np_pi : np_float := Fin PI.

(** [x * y] *)
Definition np_mul (x y : np_float) : np_float :=
  match x, y with
  | NaN, _ | _, NaN => NaN
  | Fin a, Fin b => Fin (a * b)
  | Fin a, PInf | PInf, Fin a => if is_zero a then NaN else inf (is_neg a)
  | Fin a, NInf | NInf, Fin a => if is_zero a then NaN else inf (negb (is_neg a))
  | PInf, PInf | NInf, NInf => PInf
  | PInf, NInf | NInf, PInf => NInf
  end.

(** [x / y]: a finite non-zero number over zero is an infinity of the
    sign of the numerator, zero over zero is NaN. *)
Definition np_div (x y : np_float) : np_float :=
  match x, y with
  | NaN, _ | _, NaN => NaN
  | Fin a, Fin b =>
      if is_zero b
      then (if is_zero a then NaN else inf (is_neg a))
      else Fin (a / b)
  | Fin _, PInf | Fin _, NInf => Fin 0
  | PInf, Fin b => inf (is_neg b)
  | NInf, Fin b => inf (negb (is_neg b))
  | PInf, PInf | PInf, NInf | NInf, PInf | NInf, NInf => NaN
  end.

Definition np_sqrt (x : np_float) : np_float :=
  match x with
  | NaN => NaN
  | PInf => PInf
  | NInf => NaN
  | Fin a => if is_neg a then NaN else Fin (sqrt a)
  end.

(** The two exponents the notebook uses with [**].  On a float64 array
    numpy evaluates [x ** 2] as the square and [x ** 0.5] as the square
    root. *)
Inductive exponent : Type := Two | Half.

Definition np_power (x : np_float) (p : exponent) : np_float :=
  match p with
  | Two => np_mul x x
  | Half => np_sqrt x
  end.

(** Comparisons: every comparison with NaN is false. *)
Definition np_lt (x y : np_float) : bool :=
  match x, y with
  | NaN, _ | _, NaN => false
  | Fin a, Fin b => if Rlt_dec a b then true else false
  | NInf, NInf => false
  | NInf, _ => true
  | _, NInf => false
  | PInf, _ => false
  | Fin _, PInf => true
  end.

Definition np_ge (x y : np_float) : bool :=
  match x, y with
  | NaN, _ | _, NaN => false
  | Fin a, Fin b => if Rle_dec b a then true else false
  | PInf, _ => true
  | _, NInf => true
  | NInf, _ => false
  | Fin _, PInf => false
  end.

Definition isnan (x : np_float) : bool :=
  match x with NaN => true | _ => false end.

(** A one-dimensional float64 array, also the values of a pandas Series
    with the default index 0, 1, 2, ... *)
Definition Series : Type := list np_float.

(** A binary operation on two Series.  pandas aligns the operands on
    their index: a label present in one operand only gives NaN. *)
Fixpoint align (f : np_float -> np_float -> np_float) (xs ys : Series) : Series :=
  match xs, ys with
  | [], _ => map (fun _ => NaN) ys
  | _, [] => map (fun _ => NaN) xs
  | x :: xs', y :: ys' => f x y :: align f xs' ys'
  end.

(** [s < c] and [s >= c] for a scalar [c]: boolean masks. *)
Definition series_lt (s : Series) (c : np_float) : list bool :=
  map (fun x => np_lt x c) s.

Definition series_ge (s : Series) (c : np_float) : list bool :=
  map (fun x => np_ge x c) s.

(** [np.logical_and(a, b)] on two masks of one shape. *)
Fixpoint logical_and (a b : list bool) : list bool :=
  match a, b with
  | x :: a', y :: b' => (x && y) :: logical_and a' b'
  | _, _ => []
  end.

(** [np.where(mask)[0]]: the positions where the mask holds, increasing. *)
Fixpoint where_from (i : nat) (mask : list bool) : list nat :=
  match mask with
  | [] => []
  | b :: mask' => if b then i :: where_from (S i) mask' else where_from (S i) mask'
  end.

Definition np_where (mask : list bool) : list nat := where_from 0 mask.

(** [s[ids]] for an array of integer labels: a missing label raises
    KeyError. *)
Fixpoint getitem (s : Series) (ids : list nat) : outcome Series :=
  match ids with
  | [] => Returns []
  | i :: ids' =>
      match nth_error s i with
      | None => Raises KeyError
      | Some x => rest <- getitem s ids' ;; Returns (x :: rest)
      end
  end.


(** The operand protocol the arithmetic of [iribarrenNb] relies on: the
    function is written once and runs on scalars and on Series alike. *)
Class Operand (A : Type) : Type := {
  rmul : np_float -> A -> A;        (* scalar * operand *)
  pow : A -> exponent -> A;         (* operand ** p *)
  div_scalar : A -> np_float -> A;  (* operand / scalar *)
  div : A -> A -> A                 (* operand / operand *)
}.

#[export] Instance Operand_scalar : Operand np_float := {
  rmul := np_mul;
  pow := np_power;
  div_scalar := np_div;
  div := np_div
}.

#[export] Instance Operand_Series : Operand Series := {
  rmul c s := map (fun x => np_mul c x) s;
  pow s p := map (fun x => np_power x p) s;
  div_scalar s c := map (fun x => np_div x c) s;
  div := align np_div
}.

End NumPy.

Import NumPy.

(** * pandas data frames *)

Module Pandas.

(** A column of a data frame: float64, int64 or object (strings). *)
Inductive column : Type :=
| Floats (s : Series)
| Ints (s : list Z)
| Objects (s : list string).

(** A data frame: its columns in order, each with its name. *)
Definition DataFrame : Type := list (string * column).

(** [df.columns] *)
Definition columns (df : DataFrame) : list string := map fst df.

Definition column_length (c : column) : nat :=
  match c with
  | Floats s => List.length s
  | Ints s => List.length s
  | Objects s => List.length s
  end.

(** [len(df)]: the number of rows. *)
Definition nrows (df : DataFrame) : nat :=
  match df with
  | [] => 0
  | (_, c) :: _ => column_length c
  end.

(** [df.name]: attribute access to a column. *)
Fixpoint getattr (df : DataFrame) (name : string) : outcome column :=
  match df with
  | [] => Raises AttributeError
  | (n, c) :: df' => if String.eqb n name then Returns c else getattr df' name
  end.

(** The values a column contributes to float arithmetic.  An int64 column
    is converted; arithmetic on an object column raises TypeError. *)
Definition to_numeric (c : column) : outcome Series :=
  match c with
  | Floats s => Returns s
  | Ints s => Returns (map (fun z => Fin (IZR z)) s)
  | Objects _ => Raises TypeError
  end.

Definition numeric (df : DataFrame) (name : string) : outcome Series :=
  c <- getattr df name ;; to_numeric c.

(** [df[name] = col]: replaces the column of that name, or appends a new
    column at the end. *)
Fixpoint setitem (df : DataFrame) (name : string) (col : column) : DataFrame :=
  match df with
  | [] => [(name, col)]
  | (n, c) :: df' =>
      if String.eqb n name then (name, col) :: df'
      else (n, c) :: setitem df' name col
  end.

End Pandas.

Import Pandas.

(** * The run-up notebook *)

Module Runup.

Open Scope string_scope.

(** The column names given to [pd.read_csv]. *)
Definition names : list string :=
  ["dataset"; "beach"; "case"; "lab_field"; "hs"; "tp"; "beta"; "d50";
   "roughness"; "r2"].

(** One row of the run-up table. *)
Record RunupRecord : Type := {
  dataset : string;
  beach : string;
  case : Z;
  lab_field : string;
  hs : np_float;
  tp : np_float;
  beta : np_float;
  d50 : np_float;
  roughness : np_float;
  r2 : np_float
}.

(** The data frame [pd.read_csv(..., names=names, skiprows=1)] builds from
    the rows of the file. *)
Definition read_rows (rows : list RunupRecord) : DataFrame :=
  [("dataset", Objects (map dataset rows));
   ("beach", Objects (map beach rows));
   ("case", Ints (map case rows));
   ("lab_field", Objects (map lab_field rows));
   ("hs", Floats (map hs rows));
   ("tp", Floats (map tp rows));
   ("beta", Floats (map beta rows));
   ("d50", Floats (map d50 rows));
   ("roughness", Floats (map roughness rows));
   ("r2", Floats (map r2 rows))].

(** [Lp = 9.81 * (Tp ** 2) / (2 * np.pi)] *)
Definition Lp {A : Type} `{Operand A} (Tp : A) : A :=
  div_scalar (rmul (Fin 9.81) (pow Tp Two)) (np_mul (Fin 2) np_pi).

(** [def iribarrenNb(Tp,Hs,beta)] *)
Definition iribarrenNb {A : Type} `{Operand A} (Tp Hs beta : A) : A :=
  let Lp := Lp Tp in
  let zeta := div beta (pow (div Hs Lp) Half) in
  zeta.

(** The cell
    [iribarren = iribarrenNb(Tp=df.tp, Hs=df.hs, beta=df.beta)]
    [df["iribarren"] = iribarren] *)
Definition cell_iribarren (df : DataFrame) : outcome DataFrame :=
  Tp <- numeric df "tp" ;;
  Hs <- numeric df "hs" ;;
  beta <- numeric df "beta" ;;
  let iribarren := iribarrenNb Tp Hs beta in
  Returns (setitem df "iribarren" (Floats iribarren)).

(** [ids1 = np.where(df.iribarren<0.5)[0]] and its two siblings, on the
    values of the [iribarren] column. *)
Definition ids1 (iribarren : Series) : list nat :=
  np_where (series_lt iribarren (Fin 0.5)).

Definition ids2 (iribarren : Series) : list nat :=
  np_where (logical_and (series_ge iribarren (Fin 0.5))
                        (series_lt iribarren (Fin 1.5))).

Definition ids3 (iribarren : Series) : list nat :=
  np_where (series_ge iribarren (Fin 1.5)).

(** The data of one [plt.plot(df.iribarren[ids], df.r2[ids]/df.hs[ids], ...)]. *)
Definition runup_points (df : DataFrame) (ids : list nat) : outcome (Series * Series) :=
  iribarren <- numeric df "iribarren" ;;
  x <- getitem iribarren ids ;;
  r2 <- numeric df "r2" ;;
  a <- getitem r2 ids ;;
  hs <- numeric df "hs" ;;
  b <- getitem hs ids ;;
  Returns (x, div a b).

(** What the plotting cell draws: for each beach type the selected rows
    and their points. *)
Record runup_plot : Type := {
  dissipative_ids : list nat;
  dissipative_points : Series * Series;
  intermediate_ids : list nat;
  intermediate_points : Series * Series;
  reflective_ids : list nat;
  reflective_points : Series * Series
}.

Definition cell_plot (df : DataFrame) : outcome runup_plot :=
  iribarren <- numeric df "iribarren" ;;
  let ids1 := ids1 iribarren in
  p1 <- runup_points df ids1 ;;
  let ids2 := ids2 iribarren in
  p2 <- runup_points df ids2 ;;
  let ids3 := ids3 iribarren in
  p3 <- runup_points df ids3 ;;
  Returns {| dissipative_ids := ids1; dissipative_points := p1;
             intermediate_ids := ids2; intermediate_points := p2;
             reflective_ids := ids3; reflective_points := p3 |}.

(** ** The operations of the specification, on one record

    The specification names the per-record content of the cells above.
    Each definition below is the corresponding source expression applied
    to scalars. *)



(** The three masks behind [ids1], [ids2], [ids3], on one value. *)
Definition in_ids1 (x : np_float) : bool := np_lt x (Fin 0.5).
Definition in_ids2 (x : np_float) : bool := np_ge x (Fin 0.5) && np_lt x (Fin 1.5).
Definition in_ids3 (x : np_float) : bool := np_ge x (Fin 1.5).

(** The labels the plots give to the three groups. *)
Inductive beach_type : Type := dissipative | intermediate | reflective.

(** The group a value is plotted in, if any. *)
Definition classifyBeachType (iribarren : np_float) : option beach_type :=
  if in_ids1 iribarren then Some dissipative
  else if in_ids2 iribarren then Some intermediate
  else if in_ids3 iribarren then Some reflective
  else None.


(** The deep-water wavelength as the specification writes it, on the
    real numbers: g * period^2 / (2 pi) with g = 9.81. *)
Definition wavelength (period : R) : R := 9.81 * period ^ 2 / (2 * PI).

(** A row with the given measurements (the identifying columns are those
    of the specification's scenario). *)
Definition measurement (hs tp beta r2 : np_float) : RunupRecord :=
  {| dataset := "A"; beach := "B1"; case := 1; lab_field := "field";
     hs := hs; tp := tp; beta := beta; d50 := Fin 0.0003;
     roughness := Fin 1; r2 := r2 |}.

(** The row of the specification's end-to-end scenario. *)
Definition scenario_row : RunupRecord :=
  measurement (Fin 2) (Fin 8) (Fin 0.05) (Fin 1.2).

(** The domain constraints the specification's data model puts on a row:
    hs > 0, tp > 0, beta >= 0, d50 >= 0, r2 >= 0. *)
Definition in_domain (record : RunupRecord) : bool :=
  np_lt (Fin 0) (hs record) && np_lt (Fin 0) (tp record)
  && np_ge (beta record) (Fin 0) && np_ge (d50 record) (Fin 0)
  && np_ge (r2 record) (Fin 0).

(** The whole analysis of the notebook on the rows of the file. *)
Definition batchAnalyze (records : list RunupRecord) : outcome (DataFrame * runup_plot) :=
  let df := read_rows records in
  df' <- cell_iribarren df ;;
  plot <- cell_plot df' ;;
  Returns (df', plot).

(** ** Row-by-row description of the stored column

    Used to state what the cells compute: the scalar [iribarrenNb] of
    each row in row order, and the table with that column at its end. *)
Definition iribarren_of (rows : list RunupRecord) : Series :=
  map (fun r => iribarrenNb (tp r) (hs r) (beta r)) rows.

Definition analysed (rows : list RunupRecord) : DataFrame :=
  (read_rows rows ++ [("iribarren", Floats (iribarren_of rows))])%list.

End Runup.

(** * The wave-analysis notebook: correlations with climate indices *)

Module WaveAnalysis.

(** One row of a monthly data frame ([soi_df], [aoi_df], [sam_df],
    [wh_df], [T_df]): its date and its anomaly. *)
Record month_row : Type := {
  year : Z;
  month : Z;
  anomaly : np_float
}.

Definition frame : Type := list month_row.

(** [df['anomaly']] *)
Definition anomaly_col (df : frame) : Series := map anomaly df.

Section Correlations.

(** The statistic [scipy.stats.pearsonr] computes from two arrays of one
    length: the coefficient r and the p-value. *)
Variable pearson_stat : Series -> Series -> np_float * np_float.





End Correlations.

End WaveAnalysis.

(** * The run-up notebook: the second plot and the cells in order *)

Module RunupPlots.

Import Runup.

Open Scope string_scope.

(** The data of one [plt.plot(df.hs[ids], df.r2[ids], ...)] of the second
    plotting cell. *)
Definition height_points (df : DataFrame) (ids : list nat) : outcome (Series * Series) :=
  hs <- numeric df "hs" ;;
  x <- getitem hs ids ;;
  r2 <- numeric df "r2" ;;
  y <- getitem r2 ids ;;
  Returns (x, y).

(** The second plotting cell.  [ids1], [ids2], [ids3] are the variables the
    first plotting cell has left in the notebook. *)
Definition cell_plot_heights (df : DataFrame) (ids1 ids2 ids3 : list nat)
  : outcome ((Series * Series) * (Series * Series) * (Series * Series)) :=
  p1 <- height_points df ids1 ;;
  p2 <- height_points df ids2 ;;
  p3 <- height_points df ids3 ;;
  Returns (p1, p2, p3).

(** The rows of one plotted group: the rows, in table order, whose Iribarren
    number satisfies the mask of the group. *)
Definition group_rows (mask : np_float -> bool) (rows : list RunupRecord)
  : list RunupRecord :=
  filter (fun r => mask (iribarrenNb (tp r) (hs r) (beta r))) rows.

(** The points the first plot draws for a group of rows: the Iribarren
    number against r2 / hs. *)
Definition ratio_points (sel : list RunupRecord) : Series * Series :=
  (map (fun r => iribarrenNb (tp r) (hs r) (beta r)) sel,
   map (fun r => np_div (r2 r) (hs r)) sel).

(** The points the second plot draws for a group of rows: hs against r2. *)
Definition height_pairs (sel : list RunupRecord) : Series * Series :=
  (map hs sel, map r2 sel).

End RunupPlots.

(** * numpy and pandas: sums and means *)

Module Stats.

(** [x + y] *)
Definition np_add (x y : np_float) : np_float :=
  match x, y with
  | NaN, _ | _, NaN => NaN
  | Fin a, Fin b => Fin (a + b)
  | PInf, NInf | NInf, PInf => NaN
  | PInf, _ | _, PInf => PInf
  | NInf, _ | _, NInf => NInf
  end.

(** [x - y] *)
Definition np_sub (x y : np_float) : np_float :=
  match x, y with
  | NaN, _ | _, NaN => NaN
  | Fin a, Fin b => Fin (a - b)
  | PInf, PInf | NInf, NInf => NaN
  | PInf, _ | _, NInf => PInf
  | NInf, _ | _, PInf => NInf
  end.

Definition notna (x : np_float) : bool := negb (isnan x).

(** [np.isfinite(x)] *)
Definition isfinite (x : np_float) : bool :=
  match x with Fin _ => true | _ => false end.

(** The sum of the values of an array. *)
Definition np_sum (s : Series) : np_float := fold_right np_add (Fin 0) s.

(** [s.mean()] of a pandas Series: NaN values are skipped; the mean of no
    value is NaN. *)
Definition series_mean (s : Series) : np_float :=
  match filter notna s with
  | [] => NaN
  | values => np_div (np_sum values) (Fin (INR (List.length values)))
  end.

End Stats.

Import Stats.

(** * The wave-analysis notebook: monthly tables and their anomalies *)

Module Monthly.

(** One row of a monthly table ([aoi_data], [sam_data], [wh_data], ...):
    its index label, its date and its value. *)
Record row : Type := {
  label : nat;
  year : Z;
  month : Z;
  Value : np_float
}.

Definition table : Type := list row.

(** The dates of the rows of a table. *)
Definition table_dates (t : table) : list (Z * Z) :=
  map (fun r => (year r, month r)) t.

(** [df[mask].index]: the labels of the rows where the mask holds. *)
Definition index_where (mask : row -> bool) (df : table) : list nat :=
  map label (filter mask df).

(** [df.drop(labels)]: the table without the rows that carry one of the
    labels.  A label that no row carries raises KeyError. *)
Definition drop (df : table) (labels : list nat) : outcome table :=
  if forallb (fun l => existsb (fun r => Nat.eqb (label r) l) df) labels
  then Returns (filter (fun r => negb (existsb (Nat.eqb (label r)) labels)) df)
  else Raises KeyError.

(** [x_df = x_data.drop(x_data[x_data.year < time[0]].index)]
    [x_df = x_df.drop(x_df[x_df.year > time[1]].index)] *)
Definition select_years (time0 time1 : Z) (x_data : table) : outcome table :=
  x_df <- drop x_data (index_where (fun r => Z.ltb (year r) time0) x_data) ;;
  drop x_df (index_where (fun r => Z.gtb (year r) time1) x_df).

(** [x_mean = x_df['Value'].mean()]
    [x_df['anomaly'] = x_df['Value'] - x_mean] *)
Definition with_anomaly (x_df : table) : WaveAnalysis.frame :=
  let x_mean := series_mean (map Value x_df) in
  map (fun r => {| WaveAnalysis.year := year r;
                   WaveAnalysis.month := month r;
                   WaveAnalysis.anomaly := np_sub (Value r) x_mean |}) x_df.


(** A cell that restricts a monthly table to the years of [time] and adds
    the anomalies (the cells of AOI, SAMI, wave height and wave period,
    after the table has been read). *)
Definition anomaly_cell (time0 time1 : Z) (x_data : table) : outcome WaveAnalysis.frame :=
  x_df <- select_years time0 time1 x_data ;;
  Returns (with_anomaly x_df).

(** The table [pd.read_csv(filename, names=["Date", "Value"])] gives, after
    [soi_data['year'] = soi_data['Date'] // 100] and
    [soi_data['month'] = soi_data['Date'] % 100]. *)
Definition soi_table (lines : list (Z * np_float)) : table :=
  map (fun il => {| label := fst il;
                    year := Z.div (fst (snd il)) 100;
                    month := Z.modulo (fst (snd il)) 100;
                    Value := snd (snd il) |})
      (combine (seq 0 (List.length lines)) lines).

End Monthly.

(** * The wave-analysis notebook: monthly means of the altimeter records *)

Module Waves.

(** One record of [wa.timeseries], with the columns the notebook uses. *)
Record observation : Type := {
  year : Z;
  month : Z;
  wh : np_float;
  period : np_float
}.

(** Dates (year, month) in their order. *)
Definition date_ltb (a b : Z * Z) : bool :=
  Z.ltb (fst a) (fst b) || (Z.eqb (fst a) (fst b) && Z.ltb (snd a) (snd b)).

Definition date_eqb (a b : Z * Z) : bool :=
  Z.eqb (fst a) (fst b) && Z.eqb (snd a) (snd b).

Definition date_lt (a b : Z * Z) : Prop := date_ltb a b = true.

Definition date_of (o : observation) : Z * Z := (year o, month o).

(** The keys of [groupby(['year', 'month'])]: the distinct dates of the
    records, sorted. *)
Fixpoint insert_date (d : Z * Z) (ds : list (Z * Z)) : list (Z * Z) :=
  match ds with
  | [] => [d]
  | d' :: ds' =>
      if date_ltb d d' then d :: ds
      else if date_eqb d d' then ds
      else d' :: insert_date d ds'
  end.

Definition group_dates (timeseries : list observation) : list (Z * Z) :=
  fold_right (fun o ds => insert_date (date_of o) ds) [] timeseries.

(** [wa.timeseries.groupby(['year', 'month'])[[col]].apply(np.mean).reset_index()]:
    one row per date that has a record, in date order, holding the mean of
    the column over the records of that date; the rows are labelled
    0, 1, 2, ... *)
Definition monthly_mean (col : observation -> np_float)
           (timeseries : list observation) : Monthly.table :=
  map (fun id =>
         {| Monthly.label := fst id;
            Monthly.year := fst (snd id);
            Monthly.month := snd (snd id);
            Monthly.Value :=
              series_mean
                (map col (filter (fun o => date_eqb (date_of o) (snd id)) timeseries)) |})
      (combine (seq 0 (List.length (group_dates timeseries)))
               (group_dates timeseries)).



End Waves.

(** * The wave-analysis notebook: the SAM index table *)

Module SAM.

(** One line of the SAM file as [read_csv] holds it: the year (the index of
    the line) and the twelve monthly cells; [cell k] is the column of month
    k + 1, NaN where the file has no value. *)
Record line : Type := {
  year : Z;
  cell : nat -> np_float
}.

(** The twelve cells of a line with their month, and those that [stack]
    keeps: it drops the NaN cells. *)
Definition cells (l : line) : list (Z * Z * np_float) :=
  map (fun k => (year l, Z.of_nat (S k), cell l k)) (seq 0 12).

Definition kept (l : line) : list (Z * Z * np_float) :=
  filter (fun c => notna (snd c)) (cells l).

(** [sam_data.stack().reset_index()] with the columns renamed to year,
    month and Value: one row per cell that holds a value, line by line and
    month by month, labelled 0, 1, 2, ... *)
Definition stack (sam_data : list line) : Monthly.table :=
  map (fun ic => {| Monthly.label := fst ic;
                    Monthly.year := fst (fst (snd ic));
                    Monthly.month := snd (fst (snd ic));
                    Monthly.Value := snd (snd ic) |})
      (combine (seq 0 (List.length (flat_map kept sam_data)))
               (flat_map kept sam_data)).

(** The cell building [sam_df]. *)
Definition sam_cell (time0 time1 : Z) (sam_data : list line)
  : outcome WaveAnalysis.frame :=
  Monthly.anomaly_cell time0 time1 (stack sam_data).

End SAM.

(** * The ocean-radar notebook: current speed *)

Module Radar.

(** One element of a numpy masked array: masked, or a value. *)
Inductive masked : Type :=
| Masked
| Data (x : np_float).

(** [a ** p] on a masked array: a masked element stays masked, and a result
    that is not finite is masked. *)
Definition ma_power (a : masked) (p : exponent) : masked :=
  match a with
  | Masked => Masked
  | Data x => let r := np_power x p in if isfinite r then Data r else Masked
  end.

(** [a + b] on masked arrays: masked where one of the operands is. *)
Definition ma_add (a b : masked) : masked :=
  match a, b with
  | Data x, Data y => Data (np_add x y)
  | _, _ => Masked
  end.

(** [sData = (uData**2 + vData**2)**0.5] at one grid point. *)
Definition speed (u v : masked) : masked :=
  ma_power (ma_add (ma_power u Two) (ma_power v Two)) Half.

(** A masked array of three dimensions (time, latitude, longitude): its
    shape and its elements. *)
Record ndarray : Type := {
  shape : nat * nat * nat;
  item : nat -> nat -> nat -> masked
}.

(** [a ** p] on an array. *)
Definition array_power (a : ndarray) (p : exponent) : ndarray :=
  {| shape := shape a; item := fun t i j => ma_power (item a t i j) p |}.

(** Broadcasting of one axis: equal lengths, or one of them 1. *)
Definition broadcast_axis (n m : nat) : option nat :=
  if Nat.eqb n m then Some n
  else if Nat.eqb n 1 then Some m
  else if Nat.eqb m 1 then Some n
  else None.

(** The index an operand of length [n] contributes along an axis. *)
Definition axis_index (n i : nat) : nat := if Nat.eqb n 1 then 0%nat else i.

(** [a + b] on arrays, with numpy's broadcasting; shapes that cannot be
    broadcast together raise ValueError. *)
Definition array_add (a b : ndarray) : outcome ndarray :=
  match shape a, shape b with
  | (ta, ia, ja), (tb, ib, jb) =>
      match broadcast_axis ta tb, broadcast_axis ia ib, broadcast_axis ja jb with
      | Some t, Some i, Some j =>
          Returns {| shape := (t, i, j);
                     item := fun x y z =>
                       ma_add (item a (axis_index ta x) (axis_index ia y) (axis_index ja z))
                              (item b (axis_index tb x) (axis_index ib y) (axis_index jb z)) |}
      | _, _, _ => Raises ValueError
      end
  end.

(** [sData = (uData**2 + vData**2)**0.5] *)
Definition sData (uData vData : ndarray) : outcome ndarray :=
  s2 <- array_add (array_power uData Two) (array_power vData Two) ;;
  Returns (array_power s2 Half).

End Radar.

(** * The wave-analysis notebook: from the tables to one correlation *)

Module Notebook.



End Notebook.

(** * Properties of the number model *)

Import Runup.

Lemma is_zero_false (r : R) : r <> 0 -> is_zero r = false.
Proof. intros Hr. unfold is_zero. destruct (Req_dec_T r 0); [contradiction | reflexivity]. Qed.



Lemma is_neg_true (r : R) : r < 0 -> is_neg r = true.
Proof. intros Hr. unfold is_neg. destruct (Rlt_dec r 0); [reflexivity | lra]. Qed.

Lemma np_lt_fin (a b : R) : np_lt (Fin a) (Fin b) = true <-> a < b.
Proof. simpl. destruct (Rlt_dec a b); split; intros; try discriminate; tauto. Qed.

Lemma np_ge_fin (a b : R) : np_ge (Fin a) (Fin b) = true <-> b <= a.
Proof. simpl. destruct (Rle_dec b a); split; intros; try discriminate; tauto. Qed.

Lemma np_div_fin (a b : R) : b <> 0 -> np_div (Fin a) (Fin b) = Fin (a / b).
Proof. intros Hb. simpl. now rewrite is_zero_false. Qed.


(** Bounds on pi, from the Machin-like series of the standard library. *)
Lemma PI_bounds : 3.1415 < PI < 3.1416.
Proof.
  split.
  - pose proof (proj1 (PI_2_3_7_ineq 1)) as H.
    unfold sum_f_R0, tg_alt, PI_2_3_7_tg, Ratan_seq in H. simpl in H. lra.
  - pose proof (proj2 (PI_2_3_7_ineq 2)) as H.
    unfold sum_f_R0, tg_alt, PI_2_3_7_tg, Ratan_seq in H. simpl in H. lra.
Qed.

Lemma two_pi_pos : 0 < 2 * PI.
Proof. pose proof PI_bounds. lra. Qed.

(** * The Iribarren number of one record *)

Lemma wavelength_pos (T : R) : T <> 0 -> 0 < wavelength T.
Proof.
  intros HT. unfold wavelength. pose proof two_pi_pos.
  apply Rdiv_lt_0_compat; [ | assumption].
  assert (0 < T ^ 2) by (simpl; nra).
  lra.
Qed.

Lemma Lp_finite (T : R) : Lp (Fin T) = Fin (wavelength T).
Proof.
  unfold Lp, wavelength. cbn.
  rewrite is_zero_false by (pose proof two_pi_pos; lra).
  f_equal. field. pose proof two_pi_pos; lra.
Qed.




(** ** C1 *)



(** ** C2 *)



(** ** C8 *)



(** * Masks and index sets *)

Lemma In_where_from (mask : list bool) (k i : nat) :
  In i (where_from k mask) <-> (k <= i)%nat /\ nth_error mask (i - k) = Some true.
Proof.
  revert k. induction mask as [ | b mask IH]; intros k; simpl.
  - split; [contradiction | ]. intros [_ H]. destruct (i - k)%nat; discriminate.
  - assert (In i (where_from (S k) mask) <->
            (k < i)%nat /\ nth_error (b :: mask) (i - k) = Some true) as Htail.
    { rewrite IH. split; intros [Hle Hnth]; split; try lia.
      - replace (i - k)%nat with (S (i - S k)) by lia. exact Hnth.
      - replace (i - k)%nat with (S (i - S k)) in Hnth by lia. exact Hnth. }
    destruct b; simpl.
    + rewrite Htail. split.
      * intros [Heq | [Hlt Hnth]]; [subst k | ]; split; try lia; try assumption.
        now rewrite Nat.sub_diag.
      * intros [Hle Hnth]. destruct (Nat.eq_dec k i) as [Heq | Hne]; [now left | right].
        split; [lia | assumption].
    + rewrite Htail. split.
      * intros [Hlt Hnth]. split; [lia | assumption].
      * intros [Hle Hnth]. split; [ | assumption].
        destruct (Nat.eq_dec k i) as [Heq | Hne]; [ | lia].
        subst k. rewrite Nat.sub_diag in Hnth. discriminate.
Qed.

Lemma In_np_where (mask : list bool) (i : nat) :
  In i (np_where mask) <-> nth_error mask i = Some true.
Proof.
  unfold np_where. rewrite In_where_from, Nat.sub_0_r.
  split; [tauto | split; [lia | assumption]].
Qed.

Lemma nth_error_logical_and (a b : list bool) (i : nat) :
  nth_error (logical_and a b) i =
  match nth_error a i, nth_error b i with
  | Some x, Some y => Some (x && y)
  | _, _ => None
  end.
Proof.
  revert b i. induction a as [ | x a IH]; intros b i.
  - destruct i; reflexivity.
  - destruct b as [ | y b].
    + destruct i; simpl; [reflexivity | ]. now destruct (nth_error a i).
    + destruct i; simpl; [reflexivity | apply IH].
Qed.

Lemma In_ids1 (s : Series) (i : nat) :
  In i (ids1 s) <-> exists x, nth_error s i = Some x /\ in_ids1 x = true.
Proof.
  unfold ids1, series_lt. rewrite In_np_where, nth_error_map.
  destruct (nth_error s i) as [x | ]; simpl.
  - split.
    + intros H. exists x. split; [reflexivity | ]. now injection H.
    + intros [y [Hy H]]. injection Hy as ->. unfold in_ids1 in H. now rewrite H.
  - split; [discriminate | ]. intros [y [Hy _]]. discriminate.
Qed.

Lemma In_ids2 (s : Series) (i : nat) :
  In i (ids2 s) <-> exists x, nth_error s i = Some x /\ in_ids2 x = true.
Proof.
  unfold ids2, series_ge, series_lt.
  rewrite In_np_where, nth_error_logical_and, !nth_error_map.
  destruct (nth_error s i) as [x | ]; simpl.
  - split.
    + intros H. exists x. split; [reflexivity | ]. now injection H.
    + intros [y [Hy H]]. injection Hy as ->. unfold in_ids2 in H. now rewrite H.
  - split; [discriminate | ]. intros [y [Hy _]]. discriminate.
Qed.

Lemma In_ids3 (s : Series) (i : nat) :
  In i (ids3 s) <-> exists x, nth_error s i = Some x /\ in_ids3 x = true.
Proof.
  unfold ids3, series_ge. rewrite In_np_where, nth_error_map.
  destruct (nth_error s i) as [x | ]; simpl.
  - split.
    + intros H. exists x. split; [reflexivity | ]. now injection H.
    + intros [y [Hy H]]. injection Hy as ->. unfold in_ids3 in H. now rewrite H.
  - split; [discriminate | ]. intros [y [Hy _]]. discriminate.
Qed.

(** The three masks on one value: at most one holds, and one holds exactly
    when the value is not NaN. *)
Lemma masks_exclusive (x : np_float) :
  (in_ids1 x = true -> in_ids2 x = false /\ in_ids3 x = false)
  /\ (in_ids2 x = true -> in_ids3 x = false).
Proof.
  unfold in_ids1, in_ids2, in_ids3.
  destruct x as [ | | | r]; simpl; try (split; intros; try split; congruence).
  destruct (Rlt_dec r 0.5), (Rle_dec 0.5 r), (Rlt_dec r 1.5), (Rle_dec 1.5 r);
    simpl; split; intros; try split; try congruence; lra.
Qed.

Lemma masks_cover (x : np_float) :
  in_ids1 x || in_ids2 x || in_ids3 x = negb (isnan x).
Proof.
  unfold in_ids1, in_ids2, in_ids3.
  destruct x as [ | | | r]; simpl; try reflexivity.
  destruct (Rlt_dec r 0.5), (Rle_dec 0.5 r), (Rlt_dec r 1.5), (Rle_dec 1.5 r);
    simpl; try reflexivity; lra.
Qed.

Lemma classify_dissipative (x : np_float) :
  classifyBeachType x = Some dissipative <-> in_ids1 x = true.
Proof.
  unfold classifyBeachType.
  destruct (in_ids1 x), (in_ids2 x), (in_ids3 x); split; congruence.
Qed.

Lemma classify_intermediate (x : np_float) :
  classifyBeachType x = Some intermediate <-> in_ids2 x = true.
Proof.
  pose proof (masks_exclusive x) as [H1 _]. unfold classifyBeachType.
  destruct (in_ids1 x), (in_ids2 x), (in_ids3 x); split; try congruence.
  all: destruct (H1 eq_refl); congruence.
Qed.

Lemma classify_reflective (x : np_float) :
  classifyBeachType x = Some reflective <-> in_ids3 x = true.
Proof.
  pose proof (masks_exclusive x) as [H1 H2]. unfold classifyBeachType.
  destruct (in_ids1 x), (in_ids2 x), (in_ids3 x); split; try congruence.
  all: try (destruct (H1 eq_refl); congruence).
  all: specialize (H2 eq_refl); congruence.
Qed.

(** ** C3 *)

(** C3: the beach type of a value follows the exact breakpoints: below 0.5
    dissipative, from 0.5 and below 1.5 intermediate, from 1.5 reflective;
    0.5 itself is intermediate and 1.5 itself reflective.  The three index
    sets of the plotting cell are the rows of the three types. *)
Theorem classifyBeachType_breakpoints (eps : R) :
  (classifyBeachType (Fin eps) = Some dissipative <-> eps < 0.5)
  /\ (classifyBeachType (Fin eps) = Some intermediate <-> 0.5 <= eps < 1.5)
  /\ (classifyBeachType (Fin eps) = Some reflective <-> 1.5 <= eps)
  /\ classifyBeachType (Fin 0.4999) = Some dissipative
  /\ classifyBeachType (Fin 0.5) = Some intermediate
  /\ classifyBeachType (Fin 1.4999) = Some intermediate
  /\ classifyBeachType (Fin 1.5) = Some reflective
  /\ (forall (iribarren : Series) (i : nat),
         (In i (ids1 iribarren) <->
          exists x, nth_error iribarren i = Some x
                    /\ classifyBeachType x = Some dissipative)
         /\ (In i (ids2 iribarren) <->
             exists x, nth_error iribarren i = Some x
                       /\ classifyBeachType x = Some intermediate)
         /\ (In i (ids3 iribarren) <->
             exists x, nth_error iribarren i = Some x
                       /\ classifyBeachType x = Some reflective)).
Proof.
  assert (forall r, classifyBeachType (Fin r) = Some dissipative <-> r < 0.5) as Hd.
  { intros r. rewrite classify_dissipative. apply np_lt_fin. }
  assert (forall r, classifyBeachType (Fin r) = Some intermediate <-> 0.5 <= r < 1.5) as Hi.
  { intros r. rewrite classify_intermediate. unfold in_ids2.
    rewrite andb_true_iff, np_ge_fin, np_lt_fin. tauto. }
  assert (forall r, classifyBeachType (Fin r) = Some reflective <-> 1.5 <= r) as Hr.
  { intros r. rewrite classify_reflective. apply np_ge_fin. }
  repeat split; try (apply Hd; assumption); try (apply Hi; assumption);
    try (apply Hr; assumption).
  - apply Hd. lra.
  - apply Hi. lra.
  - apply Hi. lra.
  - apply Hr. lra.
  - rewrite In_ids1. intros [x [Hx H]]. exists x. now rewrite classify_dissipative.
  - rewrite In_ids1. intros [x [Hx H]]. exists x. now rewrite <- classify_dissipative.
  - rewrite In_ids2. intros [x [Hx H]]. exists x. now rewrite classify_intermediate.
  - rewrite In_ids2. intros [x [Hx H]]. exists x. now rewrite <- classify_intermediate.
  - rewrite In_ids3. intros [x [Hx H]]. exists x. now rewrite classify_reflective.
  - rewrite In_ids3. intros [x [Hx H]]. exists x. now rewrite <- classify_reflective.
Qed.

(** ** C10 *)

Lemma iribarrenNb_negative_height (T H s : R) :
  T <> 0 -> H < 0 -> iribarrenNb (Fin T) (Fin H) (Fin s) = NaN.
Proof.
  intros HT HH. unfold iribarrenNb. rewrite Lp_finite.
  pose proof (wavelength_pos T HT) as HL.
  cbn [div pow Operand_scalar np_power].
  rewrite np_div_fin by lra.
  assert (H / wavelength T < 0) as Hq.
  { unfold Rdiv. apply Rmult_neg_pos; [assumption | ]. now apply Rinv_0_lt_compat. }
  simpl. now rewrite (is_neg_true _ Hq).
Qed.



(** ** C6 *)






(** ** C7 *)




(** * The batch *)

Lemma align_map {A : Type} (f : np_float -> np_float -> np_float)
      (g h : A -> np_float) (l : list A) :
  align f (map g l) (map h l) = map (fun r => f (g r) (h r)) l.
Proof.
  induction l as [ | r l IH]; simpl; [reflexivity | now rewrite IH].
Qed.

(** On the columns of one table the Series arithmetic of [iribarrenNb] is
    the scalar arithmetic row by row. *)
Lemma iribarrenNb_rows (rows : list RunupRecord) :
  iribarrenNb (map tp rows) (map hs rows) (map beta rows)
  = map (fun r => iribarrenNb (tp r) (hs r) (beta r)) rows.
Proof.
  unfold iribarrenNb, Lp. cbn [div pow rmul div_scalar Operand_Series Operand_scalar].
  rewrite !map_map.
  rewrite (align_map np_div hs). rewrite map_map.
  apply (align_map np_div beta).
Qed.

Lemma cell_iribarren_rows (rows : list RunupRecord) :
  cell_iribarren (read_rows rows) = Returns (analysed rows).
Proof.
  unfold cell_iribarren, analysed, iribarren_of. cbn -[iribarrenNb].
  now rewrite iribarrenNb_rows.
Qed.

Lemma getitem_returns (s : Series) (ids : list nat) :
  (forall i, In i ids -> (i < List.length s)%nat) ->
  exists v, getitem s ids = Returns v /\ List.length v = List.length ids.
Proof.
  induction ids as [ | i ids IH]; intros Hin; simpl.
  - now exists [].
  - destruct (nth_error s i) as [x | ] eqn:Hx.
    + destruct IH as [v [Hv Hlen]]; [intros j Hj; apply Hin; now right | ].
      rewrite Hv. simpl. exists (x :: v). split; [reflexivity | simpl; now rewrite Hlen].
    + apply nth_error_None in Hx. specialize (Hin i (or_introl eq_refl)). lia.
Qed.

Lemma ids1_in_range (s : Series) (i : nat) : In i (ids1 s) -> (i < List.length s)%nat.
Proof.
  rewrite In_ids1. intros [x [Hx _]]. apply nth_error_Some. congruence.
Qed.

Lemma ids2_in_range (s : Series) (i : nat) : In i (ids2 s) -> (i < List.length s)%nat.
Proof.
  rewrite In_ids2. intros [x [Hx _]]. apply nth_error_Some. congruence.
Qed.

Lemma ids3_in_range (s : Series) (i : nat) : In i (ids3 s) -> (i < List.length s)%nat.
Proof.
  rewrite In_ids3. intros [x [Hx _]]. apply nth_error_Some. congruence.
Qed.

Lemma runup_points_rows (rows : list RunupRecord) (ids : list nat) :
  (forall i, In i ids -> (i < List.length rows)%nat) ->
  exists x a b,
    getitem (iribarren_of rows) ids = Returns x
    /\ getitem (map r2 rows) ids = Returns a
    /\ getitem (map hs rows) ids = Returns b
    /\ runup_points (analysed rows) ids = Returns (x, div a b).
Proof.
  intros Hin.
  destruct (getitem_returns (iribarren_of rows) ids) as [x [Hx _]].
  { unfold iribarren_of. now rewrite length_map. }
  destruct (getitem_returns (map r2 rows) ids) as [a [Ha _]].
  { now rewrite length_map. }
  destruct (getitem_returns (map hs rows) ids) as [b [Hb _]].
  { now rewrite length_map. }
  exists x, a, b. repeat split; try assumption.
  unfold runup_points, analysed. cbn -[getitem iribarren_of div].
  rewrite Hx. cbn -[getitem div]. rewrite Ha. cbn -[getitem div].
  rewrite Hb. reflexivity.
Qed.

Lemma cell_plot_rows (rows : list RunupRecord) :
  exists p1 p2 p3,
    runup_points (analysed rows) (ids1 (iribarren_of rows)) = Returns p1
    /\ runup_points (analysed rows) (ids2 (iribarren_of rows)) = Returns p2
    /\ runup_points (analysed rows) (ids3 (iribarren_of rows)) = Returns p3
    /\ cell_plot (analysed rows)
       = Returns {| dissipative_ids := ids1 (iribarren_of rows);
                    dissipative_points := p1;
                    intermediate_ids := ids2 (iribarren_of rows);
                    intermediate_points := p2;
                    reflective_ids := ids3 (iribarren_of rows);
                    reflective_points := p3 |}.
Proof.
  assert (List.length (iribarren_of rows) = List.length rows) as Hlen
      by (unfold iribarren_of; apply length_map).
  destruct (runup_points_rows rows (ids1 (iribarren_of rows)))
    as (x1 & a1 & b1 & _ & _ & _ & H1).
  { intros i Hi. rewrite <- Hlen. now apply ids1_in_range. }
  destruct (runup_points_rows rows (ids2 (iribarren_of rows)))
    as (x2 & a2 & b2 & _ & _ & _ & H2).
  { intros i Hi. rewrite <- Hlen. now apply ids2_in_range. }
  destruct (runup_points_rows rows (ids3 (iribarren_of rows)))
    as (x3 & a3 & b3 & _ & _ & _ & H3).
  { intros i Hi. rewrite <- Hlen. now apply ids3_in_range. }
  exists (x1, div a1 b1), (x2, div a2 b2), (x3, div a3 b3).
  repeat split; try assumption.
  unfold cell_plot.
  assert (numeric (analysed rows) "iribarren" = Returns (iribarren_of rows)) as ->
      by reflexivity.
  cbn [bind]. rewrite H1. cbn [bind]. rewrite H2. cbn [bind]. rewrite H3.
  reflexivity.
Qed.

Lemma batchAnalyze_rows (rows : list RunupRecord) :
  exists plot,
    cell_plot (analysed rows) = Returns plot
    /\ dissipative_ids plot = ids1 (iribarren_of rows)
    /\ intermediate_ids plot = ids2 (iribarren_of rows)
    /\ reflective_ids plot = ids3 (iribarren_of rows)
    /\ batchAnalyze rows = Returns (analysed rows, plot).
Proof.
  destruct (cell_plot_rows rows) as (p1 & p2 & p3 & _ & _ & _ & Hplot).
  eexists. split; [exact Hplot | ]. repeat split.
  unfold batchAnalyze. rewrite cell_iribarren_rows. cbn [bind].
  rewrite Hplot. reflexivity.
Qed.

Lemma iribarren_of_length (rows : list RunupRecord) :
  List.length (iribarren_of rows) = List.length rows.
Proof. unfold iribarren_of. apply length_map. Qed.

Lemma analysed_column_length (rows : list RunupRecord) (name : string) (c : column) :
  In (name, c) (analysed rows) -> column_length c = List.length rows.
Proof.
  unfold analysed, read_rows. intros Hin. simpl in Hin.
  repeat (destruct Hin as [Heq | Hin];
          [injection Heq as _ <-; simpl;
           first [apply length_map | apply iribarren_of_length] | ]).
  contradiction.
Qed.

(** ** C4 *)

(** A row with a negative wave height stays in the result: the output has
    one row where the input has no row inside the domain. *)
Lemma batchAnalyze_keeps_row_outside_domain :
  in_domain (measurement (Fin (-1)) (Fin 8) (Fin 0.05) (Fin 1.2)) = false
  /\ exists df' plot,
      batchAnalyze [measurement (Fin (-1)) (Fin 8) (Fin 0.05) (Fin 1.2)]
      = Returns (df', plot)
      /\ nrows df' = 1%nat
      /\ nrows df' <>
         List.length
           (filter in_domain [measurement (Fin (-1)) (Fin 8) (Fin 0.05) (Fin 1.2)])
      /\ getattr df' "hs" = Returns (Floats [Fin (-1)])
      /\ getattr df' "iribarren" = Returns (Floats [NaN]).
Proof.
  assert (in_domain (measurement (Fin (-1)) (Fin 8) (Fin 0.05) (Fin 1.2)) = false)
    as Hdom.
  { unfold in_domain. simpl. destruct (Rlt_dec 0 (-1)); [lra | reflexivity]. }
  split; [exact Hdom | ].
  destruct (batchAnalyze_rows [measurement (Fin (-1)) (Fin 8) (Fin 0.05) (Fin 1.2)])
    as (plot & _ & _ & _ & _ & Hbatch).
  eexists. exists plot. split; [exact Hbatch | ].
  repeat split.
  - simpl. rewrite Hdom. simpl. discriminate.
  - unfold analysed, iribarren_of. cbn -[iribarrenNb].
    now rewrite iribarrenNb_negative_height by lra.
Qed.

(** C4 (amended): the batch keeps every input row, in input order, whether
    or not the row satisfies the domain constraints: nothing is excluded
    and nothing is reported as an error.  The batch never fails; the rows
    selected for the three plotted groups are the index sets of the stored
    Iribarren numbers. *)
Theorem batchAnalyze_keeps_every_row (records : list RunupRecord) :
  exists df' plot,
    batchAnalyze records = Returns (df', plot)
    /\ (forall e, ~ raises (batchAnalyze records) e)
    /\ nrows df' = List.length records
    /\ (forall name c, In (name, c) df' -> column_length c = List.length records)
    /\ getattr df' "hs" = Returns (Floats (map hs records))
    /\ getattr df' "tp" = Returns (Floats (map tp records))
    /\ getattr df' "beta" = Returns (Floats (map beta records))
    /\ getattr df' "r2" = Returns (Floats (map r2 records))
    /\ getattr df' "iribarren"
       = Returns (Floats (map (fun r => iribarrenNb (tp r) (hs r) (beta r)) records))
    /\ dissipative_ids plot = ids1 (iribarren_of records)
    /\ intermediate_ids plot = ids2 (iribarren_of records)
    /\ reflective_ids plot = ids3 (iribarren_of records).
Proof.
  destruct (batchAnalyze_rows records) as (plot & _ & Hd & Hi & Hr & Hbatch).
  exists (analysed records), plot.
  repeat split; try assumption; try reflexivity.
  - intros e. unfold raises. rewrite Hbatch. discriminate.
  - simpl. apply length_map.
  - apply analysed_column_length.
Qed.

(** ** C5 *)

(** The output table of the scenario row has one added column: there is no
    [beach_type] and no [normalized_runup] column. *)
Lemma batchAnalyze_adds_no_beach_type_column :
  exists df' plot,
    batchAnalyze [scenario_row] = Returns (df', plot)
    /\ columns df'
       <> (names ++ ["iribarren"; "beach_type"; "normalized_runup"])%list%string
    /\ getattr df' "beach_type" = Raises AttributeError
    /\ getattr df' "normalized_runup" = Raises AttributeError.
Proof.
  destruct (batchAnalyze_rows [scenario_row]) as (plot & _ & _ & _ & _ & Hbatch).
  eexists. exists plot. split; [exact Hbatch | ].
  repeat split. simpl. discriminate.
Qed.

(** C5 (amended): the input table has the ten named columns; the output is
    the same table with exactly one column, [iribarren], appended at the
    end.  The ten original columns are unchanged, and the plotting cell
    computes the beach types and the normalized run-up from the table
    without storing them. *)
Theorem batchAnalyze_appends_iribarren (records : list RunupRecord) :
  exists df' plot,
    batchAnalyze records = Returns (df', plot)
    /\ columns (read_rows records) = names
    /\ List.length names = 10%nat
    /\ columns df' = (names ++ ["iribarren"%string])%list
    /\ df' = (read_rows records ++ [("iribarren"%string, Floats (iribarren_of records))])%list
    /\ (forall name, In name names -> getattr df' name = getattr (read_rows records) name)
    /\ cell_plot df' = Returns plot.
Proof.
  destruct (batchAnalyze_rows records) as (plot & Hplot & _ & _ & _ & Hbatch).
  exists (analysed records), plot.
  repeat split; try assumption.
  intros name Hin. simpl in Hin.
  repeat (destruct Hin as [<- | Hin]; [reflexivity | ]). contradiction.
Qed.

(** * Correlations with the climate indices *)

Import WaveAnalysis.






(** ** C9 *)



(** * The plotted groups, row by row *)

Import RunupPlots.

Lemma getitem_where_from (m : list bool) (c pre : Series) :
  (List.length m <= List.length c)%nat ->
  getitem (pre ++ c)%list (where_from (List.length pre) m)
  = Returns (map snd (filter fst (combine m c))).
Proof.
  revert c pre. induction m as [ | b m IH]; intros c pre Hlen; [reflexivity | ].
  destruct c as [ | x c]; [simpl in Hlen; lia | ].
  simpl in Hlen.
  assert (getitem (pre ++ x :: c)%list (where_from (S (List.length pre)) m)
          = Returns (map snd (filter fst (combine m c)))) as Htail.
  { replace (pre ++ x :: c)%list with ((pre ++ [x]) ++ c)%list by (now rewrite <- app_assoc).
    replace (S (List.length pre)) with (List.length (pre ++ [x])%list)
      by (rewrite length_app; simpl; lia).
    apply IH. lia. }
  destruct b; simpl.
  - rewrite nth_error_app2 by lia. rewrite Nat.sub_diag. simpl.
    now rewrite Htail.
  - exact Htail.
Qed.

Lemma getitem_where (m : list bool) (c : Series) :
  (List.length m <= List.length c)%nat ->
  getitem c (np_where m) = Returns (map snd (filter fst (combine m c))).
Proof. intros Hlen. exact (getitem_where_from m c [] Hlen). Qed.

Lemma select_map {A : Type} (p : A -> bool) (f : A -> np_float) (l : list A) :
  map snd (filter fst (combine (map p l) (map f l))) = map f (filter p l).
Proof.
  induction l as [ | a l IH]; [reflexivity | ].
  simpl. destruct (p a); simpl; now rewrite IH.
Qed.

(** Selecting a column at the positions of a mask computed on the same rows
    keeps the rows where the mask holds, in order. *)
Lemma getitem_mask_rows {A : Type} (p : A -> bool) (f : A -> np_float) (l : list A) :
  getitem (map f l) (np_where (map p l)) = Returns (map f (filter p l)).
Proof.
  rewrite getitem_where by (now rewrite !length_map).
  now rewrite select_map.
Qed.

Lemma logical_and_map {A : Type} (p q : A -> bool) (l : list A) :
  logical_and (map p l) (map q l) = map (fun a => p a && q a) l.
Proof. induction l as [ | a l IH]; simpl; [reflexivity | now rewrite IH]. Qed.

Lemma ids1_rows (rows : list RunupRecord) :
  ids1 (iribarren_of rows)
  = np_where (map (fun r => in_ids1 (iribarrenNb (tp r) (hs r) (beta r))) rows).
Proof. unfold ids1, series_lt, iribarren_of. now rewrite map_map. Qed.

Lemma ids2_rows (rows : list RunupRecord) :
  ids2 (iribarren_of rows)
  = np_where (map (fun r => in_ids2 (iribarrenNb (tp r) (hs r) (beta r))) rows).
Proof.
  unfold ids2, series_ge, series_lt, iribarren_of.
  now rewrite !map_map, logical_and_map.
Qed.

Lemma ids3_rows (rows : list RunupRecord) :
  ids3 (iribarren_of rows)
  = np_where (map (fun r => in_ids3 (iribarrenNb (tp r) (hs r) (beta r))) rows).
Proof. unfold ids3, series_ge, iribarren_of. now rewrite map_map. Qed.

Lemma runup_points_group (rows : list RunupRecord) (mask : np_float -> bool) :
  runup_points (analysed rows)
    (np_where (map (fun r => mask (iribarrenNb (tp r) (hs r) (beta r))) rows))
  = Returns (ratio_points (group_rows mask rows)).
Proof.
  unfold runup_points, analysed. cbn -[getitem iribarren_of div np_where].
  unfold iribarren_of. rewrite getitem_mask_rows. cbn -[getitem div np_where].
  rewrite getitem_mask_rows. cbn -[getitem div np_where].
  rewrite getitem_mask_rows. cbn -[div].
  unfold ratio_points, group_rows. cbn [div Operand_Series].
  now rewrite align_map.
Qed.

Lemma height_points_group (rows : list RunupRecord) (mask : np_float -> bool) :
  height_points (analysed rows)
    (np_where (map (fun r => mask (iribarrenNb (tp r) (hs r) (beta r))) rows))
  = Returns (height_pairs (group_rows mask rows)).
Proof.
  unfold height_points, analysed. cbn -[getitem np_where].
  rewrite getitem_mask_rows. cbn -[getitem np_where].
  rewrite getitem_mask_rows. reflexivity.
Qed.

(** X1: the first plot draws, for each of the three groups, exactly the rows
    whose Iribarren number satisfies the group's mask, in table order, each
    as the point (Iribarren number, r2 / hs). *)
Theorem plot_groups_are_row_filters (rows : list RunupRecord) :
  exists plot,
    batchAnalyze rows = Returns (analysed rows, plot)
    /\ dissipative_points plot = ratio_points (group_rows in_ids1 rows)
    /\ intermediate_points plot = ratio_points (group_rows in_ids2 rows)
    /\ reflective_points plot = ratio_points (group_rows in_ids3 rows).
Proof.
  destruct (cell_plot_rows rows) as (p1 & p2 & p3 & H1 & H2 & H3 & Hplot).
  rewrite ids1_rows, runup_points_group in H1. injection H1 as <-.
  rewrite ids2_rows, runup_points_group in H2. injection H2 as <-.
  rewrite ids3_rows, runup_points_group in H3. injection H3 as <-.
  eexists. split.
  - unfold batchAnalyze. rewrite cell_iribarren_rows. cbn [bind].
    rewrite Hplot. reflexivity.
  - split; [reflexivity | split; reflexivity].
Qed.

(** X2: the second plot, run after the first, draws the same rows in the
    same groups, each as the point (hs, r2); it never fails. *)
Theorem height_plot_shows_same_rows (rows : list RunupRecord) :
  cell_plot_heights (analysed rows)
    (ids1 (iribarren_of rows)) (ids2 (iribarren_of rows)) (ids3 (iribarren_of rows))
  = Returns (height_pairs (group_rows in_ids1 rows),
             height_pairs (group_rows in_ids2 rows),
             height_pairs (group_rows in_ids3 rows)).
Proof.
  unfold cell_plot_heights.
  rewrite ids1_rows, ids2_rows, ids3_rows.
  rewrite !height_points_group. reflexivity.
Qed.

Lemma where_from_length (m : list bool) (k : nat) :
  List.length (where_from k m) = List.length (filter (fun b => b) m).
Proof.
  revert k. induction m as [ | b m IH]; intros k; [reflexivity | ].
  simpl. destruct b; simpl; now rewrite IH.
Qed.

Lemma mask_count (p : np_float -> bool) (s : Series) :
  List.length (np_where (map p s)) = List.length (filter p s).
Proof.
  unfold np_where. rewrite where_from_length.
  induction s as [ | x s IH]; [reflexivity | ].
  simpl. destruct (p x); simpl; now rewrite IH.
Qed.

(** X3: every row of the table is in exactly one of the three plotted groups
    or has a NaN Iribarren number: the sizes of the three index sets and the
    number of NaN values add up to the number of rows. *)
Theorem plotted_rows_count (iribarren : Series) :
  (List.length (ids1 iribarren) + List.length (ids2 iribarren)
   + List.length (ids3 iribarren) + List.length (filter isnan iribarren)
   = List.length iribarren)%nat.
Proof.
  unfold ids1, ids2, ids3, series_lt, series_ge.
  rewrite logical_and_map.
  change (map (fun x => np_lt x (Fin 0.5)) iribarren) with (map in_ids1 iribarren).
  change (map (fun a => np_ge a (Fin 0.5) && np_lt a (Fin 1.5)) iribarren)
    with (map in_ids2 iribarren).
  change (map (fun x => np_ge x (Fin 1.5)) iribarren) with (map in_ids3 iribarren).
  rewrite !mask_count.
  induction iribarren as [ | x s IH]; [reflexivity | ].
  pose proof (masks_exclusive x) as [H12 H23].
  pose proof (masks_cover x) as Hcover.
  simpl.
  destruct (in_ids1 x), (in_ids2 x), (in_ids3 x), (isnan x); simpl in *;
    try discriminate;
    try (destruct (H12 eq_refl); discriminate);
    try (specialize (H23 eq_refl); discriminate);
    lia.
Qed.

(** * The cell storing the Iribarren numbers, on any table *)

Lemma getattr_setitem_same (df : DataFrame) (name : string) (col : column) :
  getattr (setitem df name col) name = Returns col.
Proof.
  induction df as [ | [n c] df IH]; simpl.
  - now rewrite String.eqb_refl.
  - destruct (String.eqb n name) eqn:Hn; simpl.
    + now rewrite String.eqb_refl.
    + now rewrite Hn.
Qed.

Lemma getattr_setitem_other (df : DataFrame) (name other : string) (col : column) :
  other <> name -> getattr (setitem df name col) other = getattr df other.
Proof.
  intros Hne. induction df as [ | [n c] df IH]; simpl.
  - destruct (String.eqb_spec name other) as [Heq | _]; [congruence | reflexivity].
  - destruct (String.eqb_spec n name) as [Heq | Hn]; simpl.
    + subst n. destruct (String.eqb_spec name other) as [Heq | _]; [congruence | reflexivity].
    + now rewrite IH.
Qed.

Lemma setitem_setitem (df : DataFrame) (name : string) (col col' : column) :
  setitem (setitem df name col) name col' = setitem df name col'.
Proof.
  induction df as [ | [n c] df IH]; simpl.
  - now rewrite String.eqb_refl.
  - destruct (String.eqb n name) eqn:Hn; simpl.
    + now rewrite String.eqb_refl.
    + now rewrite Hn, IH.
Qed.

Lemma columns_setitem_present (df : DataFrame) (name : string) (col : column) :
  In name (columns df) -> columns (setitem df name col) = columns df.
Proof.
  induction df as [ | [n c] df IH]; simpl; [contradiction | ].
  intros Hin. destruct (String.eqb_spec n name) as [Heq | Hn]; simpl.
  - now subst n.
  - f_equal. apply IH. destruct Hin as [Heq | Hin]; [contradiction | assumption].
Qed.

Lemma columns_setitem_absent (df : DataFrame) (name : string) (col : column) :
  ~ In name (columns df) -> columns (setitem df name col) = (columns df ++ [name])%list.
Proof.
  induction df as [ | [n c] df IH]; simpl; [reflexivity | ].
  intros Hin. destruct (String.eqb_spec n name) as [Heq | Hn]; simpl.
  - exfalso. apply Hin. now left.
  - f_equal. apply IH. intros H. apply Hin. now right.
Qed.

Lemma numeric_setitem_other (df : DataFrame) (name other : string) (col : column) :
  other <> name -> numeric (setitem df name col) other = numeric df other.
Proof. intros Hne. unfold numeric. now rewrite getattr_setitem_other. Qed.

Lemma cell_iribarren_inv (df df1 : DataFrame) :
  cell_iribarren df = Returns df1 ->
  exists Tp Hs beta,
    numeric df "tp" = Returns Tp /\ numeric df "hs" = Returns Hs
    /\ numeric df "beta" = Returns beta
    /\ df1 = setitem df "iribarren" (Floats (iribarrenNb Tp Hs beta)).
Proof.
  unfold cell_iribarren. intros H.
  destruct (numeric df "tp") as [Tp | e]; [ | discriminate].
  destruct (numeric df "hs") as [Hs | e]; [ | discriminate].
  destruct (numeric df "beta") as [beta | e]; [ | discriminate].
  cbn [bind] in H. injection H as <-.
  now exists Tp, Hs, beta.
Qed.

(** X4: running the cell a second time (as happens when a notebook cell is
    re-executed) leaves the table as the first run left it: the column is
    replaced by the same values, not added again. *)
Theorem cell_iribarren_rerun (df df1 : DataFrame)
  (Hrun : cell_iribarren df = Returns df1) :
  cell_iribarren df1 = Returns df1.
Proof.
  destruct (cell_iribarren_inv df df1 Hrun) as (Tp & Hs & beta & HT & HH & HB & ->).
  unfold cell_iribarren.
  rewrite !numeric_setitem_other by discriminate.
  rewrite HT, HH, HB. cbn [bind].
  now rewrite setitem_setitem.
Qed.

Lemma cell_iribarren_rerun_witness :
  cell_iribarren (analysed [scenario_row]) = Returns (analysed [scenario_row]).
Proof.
  apply (cell_iribarren_rerun (read_rows [scenario_row])).
  apply cell_iribarren_rows.
Defined.

(** X5: the cell changes nothing but the [iribarren] column.  Every other
    column is read back as before; the column names are unchanged when the
    table already had an [iribarren] column (it is replaced in place) and
    are extended by [iribarren] at the end otherwise. *)
Theorem cell_iribarren_frame (df df1 : DataFrame)
  (Hrun : cell_iribarren df = Returns df1) :
  (forall name, name <> "iribarren"%string -> getattr df1 name = getattr df name)
  /\ (exists s, getattr df1 "iribarren" = Returns (Floats s))
  /\ (In "iribarren"%string (columns df) -> columns df1 = columns df)
  /\ (~ In "iribarren"%string (columns df) ->
      columns df1 = (columns df ++ ["iribarren"%string])%list).
Proof.
  destruct (cell_iribarren_inv df df1 Hrun) as (Tp & Hs & beta & _ & _ & _ & ->).
  repeat split.
  - intros name Hne. now apply getattr_setitem_other.
  - eexists. apply getattr_setitem_same.
  - apply columns_setitem_present.
  - apply columns_setitem_absent.
Qed.

Lemma cell_iribarren_frame_witness :
  getattr (analysed [scenario_row]) "hs" = getattr (read_rows [scenario_row]) "hs".
Proof.
  destruct (cell_iribarren_frame (read_rows [scenario_row]) (analysed [scenario_row])
              (cell_iribarren_rows [scenario_row])) as (H & _).
  apply H. discriminate.
Defined.






(** * More on the Iribarren number *)







Lemma iribarrenNb_nan (t h b : np_float) :
  t = NaN \/ h = NaN \/ b = NaN -> iribarrenNb t h b = NaN.
Proof.
  unfold iribarrenNb, Lp. cbn [div pow rmul div_scalar Operand_scalar].
  intros [-> | [-> | ->]].
  - simpl. destruct h; simpl; now destruct b.
  - simpl. now destruct b.
  - reflexivity.
Qed.

(** X9: a row with a missing measurement (NaN period, wave height or slope)
    gets a NaN Iribarren number and is in none of the three plotted
    groups. *)
Theorem missing_measurement_not_plotted
        (rows : list RunupRecord) (i : nat) (r : RunupRecord)
        (Hrow : nth_error rows i = Some r)
        (Hmissing : tp r = NaN \/ hs r = NaN \/ beta r = NaN) :
  nth_error (iribarren_of rows) i = Some NaN
  /\ ~ In i (ids1 (iribarren_of rows))
  /\ ~ In i (ids2 (iribarren_of rows))
  /\ ~ In i (ids3 (iribarren_of rows)).
Proof.
  assert (nth_error (iribarren_of rows) i = Some NaN) as Hnan.
  { unfold iribarren_of. rewrite nth_error_map, Hrow. cbn [option_map].
    now rewrite iribarrenNb_nan. }
  split; [exact Hnan | ].
  rewrite In_ids1, In_ids2, In_ids3.
  repeat split; intros [x [Hx Hm]]; rewrite Hnan in Hx; injection Hx as <-;
    discriminate.
Qed.

Lemma missing_measurement_not_plotted_witness :
  nth_error (iribarren_of [measurement NaN (Fin 8) (Fin 0.05) (Fin 1.2)]) 0 = Some NaN.
Proof.
  apply (missing_measurement_not_plotted
           [measurement NaN (Fin 8) (Fin 0.05) (Fin 1.2)] 0
           (measurement NaN (Fin 8) (Fin 0.05) (Fin 1.2)));
    [reflexivity | right; left; reflexivity].
Defined.



Lemma nth_error_align (f : np_float -> np_float -> np_float) (xs ys : Series)
      (i : nat) (x y : np_float) :
  nth_error xs i = Some x -> nth_error ys i = Some y ->
  nth_error (align f xs ys) i = Some (f x y).
Proof.
  revert ys i. induction xs as [ | x' xs IH]; intros ys i Hx Hy.
  - destruct i; discriminate.
  - destruct ys as [ | y' ys]; [destruct i; discriminate | ].
    destruct i; simpl in *.
    + injection Hx as ->. injection Hy as ->. reflexivity.
    + now apply IH.
Qed.

Lemma align_length_same (f : np_float -> np_float -> np_float) (xs ys : Series) :
  List.length xs = List.length ys -> List.length (align f xs ys) = List.length xs.
Proof.
  revert ys. induction xs as [ | x xs IH]; intros [ | y ys] Hlen;
    simpl in *; try discriminate; [reflexivity | ].
  f_equal. apply IH. lia.
Qed.

(** X11: called on Series, [iribarrenNb] works row by row: wherever the
    three Series have a value, the result holds the Iribarren number of
    these three values; on Series of one length the result has that
    length. *)
Theorem iribarrenNb_elementwise (Tp Hs beta : Series) :
  (forall i t h b,
      nth_error Tp i = Some t -> nth_error Hs i = Some h ->
      nth_error beta i = Some b ->
      nth_error (iribarrenNb Tp Hs beta) i = Some (iribarrenNb t h b))
  /\ (List.length Tp = List.length Hs -> List.length Hs = List.length beta ->
      List.length (iribarrenNb Tp Hs beta) = List.length beta).
Proof.
  unfold iribarrenNb, Lp.
  cbn [div pow rmul div_scalar Operand_Series Operand_scalar].
  split.
  - intros i t h b Ht Hh Hb.
    apply nth_error_align; [assumption | ].
    rewrite nth_error_map.
    erewrite nth_error_align; [reflexivity | eassumption | ].
    rewrite !nth_error_map, Ht. reflexivity.
  - intros H1 H2.
    rewrite align_length_same; [reflexivity | ].
    rewrite length_map, align_length_same; [now symmetry | ].
    rewrite !length_map. now symmetry.
Qed.

Lemma iribarrenNb_elementwise_witness :
  nth_error (iribarrenNb [Fin 8; Fin 9] [Fin 2; Fin 3] [Fin 0.05; Fin 0.1]) 1
  = Some (iribarrenNb (Fin 9) (Fin 3) (Fin 0.1)).
Proof.
  destruct (iribarrenNb_elementwise [Fin 8; Fin 9] [Fin 2; Fin 3] [Fin 0.05; Fin 0.1])
    as (H & _).
  apply H; reflexivity.
Defined.

(** * Monthly tables *)

Lemma nth_error_enumerate {A : Type} (l : list A) (k i : nat) :
  nth_error (combine (seq k (List.length l)) l) i
  = option_map (fun x => ((k + i)%nat, x)) (nth_error l i).
Proof.
  revert k i. induction l as [ | a l IH]; intros k i.
  - destruct i; reflexivity.
  - destruct i; simpl.
    + now rewrite Nat.add_0_r.
    + rewrite IH. now rewrite Nat.add_succ_r.
Qed.

(** X12: the dates of the SOI file are decoded digit-wise: a line whose
    date field is 100 * y + m with 0 <= m < 100 (the form YYYYMM) gets year
    y and month m, and in any case 100 * year + month gives the date field
    back; the row keeps its line number as label and its value. *)
Theorem soi_table_dates (lines : list (Z * np_float)) (i : nat) (d : Z) (v : np_float)
        (Hline : nth_error lines i = Some (d, v)) :
  exists r,
    nth_error (Monthly.soi_table lines) i = Some r
    /\ Monthly.label r = i
    /\ Monthly.Value r = v
    /\ (100 * Monthly.year r + Monthly.month r = d)%Z
    /\ (0 <= Monthly.month r < 100)%Z
    /\ (forall y m, (0 <= m < 100)%Z -> d = (100 * y + m)%Z ->
          Monthly.year r = y /\ Monthly.month r = m).
Proof.
  unfold Monthly.soi_table.
  rewrite nth_error_map, nth_error_enumerate, Hline.
  cbn [option_map fst snd Nat.add].
  eexists. split; [reflexivity | ].
  cbn [Monthly.label Monthly.year Monthly.month Monthly.Value].
  repeat split.
  - pose proof (Z.div_mod d 100). lia.
  - apply Z.mod_pos_bound. lia.
  - apply Z.mod_pos_bound. lia.
  - subst d. symmetry. apply (Z.div_unique_pos _ _ y m); lia.
  - subst d. symmetry. apply (Z.mod_unique_pos _ _ y m); lia.
Qed.

Lemma soi_table_dates_witness :
  exists r,
    nth_error (Monthly.soi_table [(199801%Z, Fin 1); (199812%Z, Fin 2)]) 1 = Some r
    /\ Monthly.year r = 1998%Z /\ Monthly.month r = 12%Z.
Proof.
  destruct (soi_table_dates [(199801%Z, Fin 1); (199812%Z, Fin 2)] 1 199812%Z (Fin 2))
    as (r & Hr & _ & _ & _ & _ & H); [reflexivity | ].
  exists r. split; [exact Hr | ]. apply H; lia.
Defined.

Lemma drop_own_labels (df : Monthly.table) (mask : Monthly.row -> bool) :
  Monthly.drop df (Monthly.index_where mask df)
  = Returns (filter (fun r => negb (existsb (Nat.eqb (Monthly.label r))
                                            (Monthly.index_where mask df))) df).
Proof.
  unfold Monthly.drop.
  assert (forallb (fun l => existsb (fun r => Nat.eqb (Monthly.label r) l) df)
                  (Monthly.index_where mask df) = true) as ->; [ | reflexivity].
  apply forallb_forall. intros l Hl.
  unfold Monthly.index_where in Hl. apply in_map_iff in Hl.
  destruct Hl as (r & <- & Hr). apply filter_In in Hr.
  apply existsb_exists. exists r. split; [tauto | apply Nat.eqb_refl].
Qed.

Lemma label_listed (df : Monthly.table) (mask : Monthly.row -> bool) (r : Monthly.row) :
  existsb (Nat.eqb (Monthly.label r)) (Monthly.index_where mask df) = true
  <-> exists r', In r' df /\ mask r' = true /\ Monthly.label r' = Monthly.label r.
Proof.
  rewrite existsb_exists. unfold Monthly.index_where. split.
  - intros (l & Hl & Heq). apply Nat.eqb_eq in Heq. subst l.
    apply in_map_iff in Hl. destruct Hl as (r' & Hlab & Hr').
    apply filter_In in Hr'. exists r'. tauto.
  - intros (r' & Hin & Hmask & Hlab). exists (Monthly.label r).
    split; [ | apply Nat.eqb_refl].
    apply in_map_iff. exists r'. split; [assumption | ].
    apply filter_In. tauto.
Qed.

Lemma unique_label (df : Monthly.table) (r r' : Monthly.row) :
  NoDup (map Monthly.label df) -> In r df -> In r' df ->
  Monthly.label r' = Monthly.label r -> r' = r.
Proof.
  induction df as [ | a df IH]; simpl; [contradiction | ].
  intros Hnd Hr Hr' Hlab. inversion Hnd as [ | x l Hnotin Hnd']; subst.
  destruct Hr as [-> | Hr], Hr' as [-> | Hr'].
  - reflexivity.
  - exfalso. apply Hnotin. rewrite <- Hlab. now apply in_map.
  - exfalso. apply Hnotin. rewrite Hlab. now apply in_map.
  - now apply IH.
Qed.

Lemma NoDup_labels_filter (df : Monthly.table) (p : Monthly.row -> bool) :
  NoDup (map Monthly.label df) -> NoDup (map Monthly.label (filter p df)).
Proof.
  induction df as [ | a df IH]; simpl; intros Hnd; [constructor | ].
  inversion Hnd as [ | x l Hnotin Hnd']; subst.
  destruct (p a); simpl; [ | now apply IH].
  constructor; [ | now apply IH].
  intros Hin. apply Hnotin. apply in_map_iff in Hin.
  destruct Hin as (r & Hlab & Hr). apply filter_In in Hr.
  rewrite <- Hlab. apply in_map. tauto.
Qed.

Lemma filter_andb {A : Type} (p q : A -> bool) (l : list A) :
  filter q (filter p l) = filter (fun x => p x && q x) l.
Proof.
  induction l as [ | a l IH]; [reflexivity | ].
  simpl. destruct (p a); simpl; [destruct (q a) | ]; now rewrite IH.
Qed.

(** With unique labels, dropping the labels of the rows where a mask holds
    removes exactly these rows. *)
Lemma drop_mask_unique (df : Monthly.table) (mask : Monthly.row -> bool) :
  NoDup (map Monthly.label df) ->
  filter (fun r => negb (existsb (Nat.eqb (Monthly.label r))
                                 (Monthly.index_where mask df))) df
  = filter (fun r => negb (mask r)) df.
Proof.
  intros Hnd. apply filter_ext_in. intros r Hr. f_equal.
  destruct (mask r) eqn:Hmask.
  - apply label_listed. now exists r.
  - destruct (existsb _ _) eqn:Hex; [ | reflexivity].
    apply label_listed in Hex. destruct Hex as (r' & Hr' & Hmask' & Hlab).
    rewrite (unique_label df r r' Hnd Hr Hr' Hlab) in Hmask'. congruence.
Qed.

Lemma select_years_returns (time0 time1 : Z) (x_data : Monthly.table) :
  exists p1 p2,
    Monthly.select_years time0 time1 x_data = Returns (filter p2 (filter p1 x_data))
    /\ (forall r, In r x_data -> p1 r = true -> (time0 <= Monthly.year r)%Z)
    /\ (forall r, In r (filter p1 x_data) -> p2 r = true -> (Monthly.year r <= time1)%Z)
    /\ (NoDup (map Monthly.label x_data) ->
        filter p2 (filter p1 x_data)
        = filter (fun r => Z.leb time0 (Monthly.year r) && Z.leb (Monthly.year r) time1)
                 x_data).
Proof.
  unfold Monthly.select_years.
  rewrite drop_own_labels. cbn [bind]. rewrite drop_own_labels.
  eexists. eexists. split; [reflexivity | ].
  split; [ | split].
  - intros r Hr Hp. apply negb_true_iff in Hp.
    destruct (Z.ltb_spec (Monthly.year r) time0) as [Hlt | Hge]; [ | assumption].
    exfalso. apply not_true_iff_false in Hp. apply Hp.
    apply label_listed. exists r. repeat split; [assumption | ].
    now apply Z.ltb_lt.
  - intros r Hr Hp. apply negb_true_iff in Hp.
    destruct (Z.leb_spec (Monthly.year r) time1) as [Hle | Hgt]; [assumption | ].
    exfalso. apply not_true_iff_false in Hp. apply Hp.
    apply label_listed. exists r. repeat split; [assumption | ].
    apply Z.gtb_lt. assumption.
  - intros Hnd.
    rewrite (drop_mask_unique x_data) by assumption.
    rewrite (drop_mask_unique (filter _ x_data))
      by (now apply NoDup_labels_filter).
    rewrite filter_andb. apply filter_ext. intros r.
    rewrite Z.gtb_ltb, !Z.leb_antisym. reflexivity.
Qed.

(** X13: restricting a monthly table to the years of [time] never fails.
    The rows kept are rows of the table with time[0] <= year <= time[1];
    when the index labels are unique (as [read_csv] and [reset_index] make
    them) they are exactly these rows, in table order. *)
Theorem select_years_window (time0 time1 : Z) (x_data : Monthly.table) :
  exists x_df,
    Monthly.select_years time0 time1 x_data = Returns x_df
    /\ (forall r, In r x_df ->
          In r x_data /\ (time0 <= Monthly.year r <= time1)%Z)
    /\ (NoDup (map Monthly.label x_data) ->
        x_df = filter (fun r => Z.leb time0 (Monthly.year r)
                                && Z.leb (Monthly.year r) time1) x_data).
Proof.
  destruct (select_years_returns time0 time1 x_data)
    as (p1 & p2 & Hret & H1 & H2 & Hnd).
  eexists. split; [exact Hret | ]. split; [ | exact Hnd].
  intros r Hr. apply filter_In in Hr. destruct Hr as [Hr Hp2].
  pose proof (H2 r Hr Hp2). apply filter_In in Hr. destruct Hr as [Hr Hp1].
  pose proof (H1 r Hr Hp1). split; [assumption | lia].
Qed.

Lemma select_years_window_witness :
  Monthly.select_years 1998 2023
    [ {| Monthly.label := 0; Monthly.year := 1997; Monthly.month := 12;
         Monthly.Value := Fin 1 |};
      {| Monthly.label := 1; Monthly.year := 1998; Monthly.month := 1;
         Monthly.Value := Fin 2 |};
      {| Monthly.label := 2; Monthly.year := 2024; Monthly.month := 1;
         Monthly.Value := Fin 3 |} ]
  = Returns [ {| Monthly.label := 1; Monthly.year := 1998; Monthly.month := 1;
                 Monthly.Value := Fin 2 |} ].
Proof.
  destruct (select_years_window 1998 2023
    [ {| Monthly.label := 0; Monthly.year := 1997; Monthly.month := 12;
         Monthly.Value := Fin 1 |};
      {| Monthly.label := 1; Monthly.year := 1998; Monthly.month := 1;
         Monthly.Value := Fin 2 |};
      {| Monthly.label := 2; Monthly.year := 2024; Monthly.month := 1;
         Monthly.Value := Fin 3 |} ])
    as (x_df & Hret & _ & Hnd).
  rewrite Hret, Hnd; [reflexivity | ].
  simpl. repeat constructor; simpl; intuition lia.
Defined.

(** * Means and anomalies *)






Lemma anomaly_col_with_anomaly (x_df : Monthly.table) :
  anomaly_col (Monthly.with_anomaly x_df)
  = map (fun v => np_sub v (series_mean (map Monthly.Value x_df)))
        (map Monthly.Value x_df).
Proof.
  unfold anomaly_col, Monthly.with_anomaly. now rewrite !map_map.
Qed.






Lemma series_mean_skips_nan (s1 s2 : Series) :
  series_mean (s1 ++ NaN :: s2)%list = series_mean (s1 ++ s2)%list.
Proof.
  unfold series_mean. rewrite !filter_app. reflexivity.
Qed.

(** X16: a month whose value is missing (NaN) is left out of the mean: the
    anomalies of the other months are what they would be without that row,
    and the anomaly of the row itself is NaN. *)
Theorem missing_month_anomaly (df1 df2 : Monthly.table) (r : Monthly.row)
        (Hnan : Monthly.Value r = NaN) :
  exists a1 a2 : Series,
    List.length a1 = List.length df1
    /\ anomaly_col (Monthly.with_anomaly (df1 ++ df2)%list) = (a1 ++ a2)%list
    /\ anomaly_col (Monthly.with_anomaly (df1 ++ r :: df2)%list)
       = (a1 ++ NaN :: a2)%list.
Proof.
  rewrite !anomaly_col_with_anomaly.
  rewrite !map_app. cbn [map]. rewrite Hnan.
  rewrite series_mean_skips_nan.
  set (m := series_mean (map Monthly.Value df1 ++ map Monthly.Value df2)%list).
  exists (map (fun v => np_sub v m) (map Monthly.Value df1)),
         (map (fun v => np_sub v m) (map Monthly.Value df2)).
  split; [now rewrite !length_map | ].
  split; [reflexivity | ].
  destruct m; reflexivity.
Qed.

Lemma missing_month_anomaly_witness :
  exists a1 a2 : Series,
    anomaly_col (Monthly.with_anomaly
      ([ {| Monthly.label := 0; Monthly.year := 1998; Monthly.month := 1;
            Monthly.Value := Fin 1 |} ]
       ++ {| Monthly.label := 1; Monthly.year := 1998; Monthly.month := 2;
             Monthly.Value := NaN |} :: [])%list)
    = (a1 ++ NaN :: a2)%list.
Proof.
  destruct (missing_month_anomaly
              [ {| Monthly.label := 0; Monthly.year := 1998; Monthly.month := 1;
                   Monthly.Value := Fin 1 |} ] []
              {| Monthly.label := 1; Monthly.year := 1998; Monthly.month := 2;
                 Monthly.Value := NaN |} eq_refl)
    as (a1 & a2 & _ & _ & H).
  now exists a1, a2.
Defined.

(** * When the correlation cells fail *)








(** * Monthly means of the altimeter records *)

Lemma date_ltb_spec (a b : Z * Z) :
  Waves.date_ltb a b = true
  <-> (fst a < fst b)%Z \/ (fst a = fst b /\ (snd a < snd b)%Z).
Proof.
  unfold Waves.date_ltb.
  rewrite orb_true_iff, andb_true_iff, !Z.ltb_lt, Z.eqb_eq. tauto.
Qed.

Lemma date_eqb_eq (a b : Z * Z) : Waves.date_eqb a b = true <-> a = b.
Proof.
  unfold Waves.date_eqb. rewrite andb_true_iff, !Z.eqb_eq.
  destruct a, b; simpl. split; [intros [-> ->]; reflexivity | ].
  intros H. injection H as -> ->. tauto.
Qed.

Lemma In_insert_date (d d' : Z * Z) (ds : list (Z * Z)) :
  In d (Waves.insert_date d' ds) <-> d = d' \/ In d ds.
Proof.
  induction ds as [ | x ds IH]; simpl; [intuition congruence | ].
  destruct (Waves.date_ltb d' x); simpl; [intuition congruence | ].
  destruct (Waves.date_eqb d' x) eqn:Heq; simpl.
  - apply date_eqb_eq in Heq. subst x. intuition congruence.
  - rewrite IH. intuition congruence.
Qed.

Lemma insert_date_sorted (d : Z * Z) (ds : list (Z * Z)) :
  StronglySorted Waves.date_lt ds -> StronglySorted Waves.date_lt (Waves.insert_date d ds).
Proof.
  induction ds as [ | x ds IH]; simpl; intros Hs.
  - repeat constructor.
  - inversion Hs as [ | y l Hs' Hall]; subst.
    destruct (Waves.date_ltb d x) eqn:Hlt.
    + constructor; [assumption | ].
      constructor; [exact Hlt | ].
      apply Forall_forall. intros y Hy.
      rewrite Forall_forall in Hall. specialize (Hall y Hy).
      unfold Waves.date_lt in *. rewrite date_ltb_spec in *. lia.
    + destruct (Waves.date_eqb d x) eqn:Heq; [assumption | ].
      constructor; [now apply IH | ].
      apply Forall_forall. intros y Hy. apply In_insert_date in Hy.
      destruct Hy as [-> | Hy].
      * unfold Waves.date_lt. rewrite date_ltb_spec.
        assert (~ ((fst d < fst x)%Z \/ (fst d = fst x /\ (snd d < snd x)%Z)))
          as Hnlt by (rewrite <- date_ltb_spec; congruence).
        assert (d <> x) as Hne by (rewrite <- date_eqb_eq; congruence).
        destruct d as [dy dm], x as [xy xm]; simpl in *.
        assert (~ (dy = xy /\ dm = xm)) by (intros [-> ->]; now apply Hne).
        lia.
      * rewrite Forall_forall in Hall. now apply Hall.
Qed.

Lemma group_dates_sorted (ts : list Waves.observation) :
  StronglySorted Waves.date_lt (Waves.group_dates ts).
Proof.
  induction ts as [ | o ts IH]; simpl; [constructor | now apply insert_date_sorted].
Qed.

Lemma In_group_dates (ts : list Waves.observation) (d : Z * Z) :
  In d (Waves.group_dates ts) <-> exists o, In o ts /\ Waves.date_of o = d.
Proof.
  induction ts as [ | o ts IH]; simpl.
  - split; [contradiction | intros (o & [] & _)].
  - rewrite In_insert_date, IH. split.
    + intros [-> | (o' & Ho' & Hd)]; [exists o; tauto | exists o'; tauto].
    + intros (o' & [-> | Ho'] & Hd); [now left | right; now exists o'].
Qed.

Lemma enumerate_fst {A : Type} (l : list A) (k : nat) :
  map fst (combine (seq k (List.length l)) l) = seq k (List.length l).
Proof.
  revert k. induction l as [ | a l IH]; intros k; simpl; [reflexivity | now rewrite IH].
Qed.

Lemma enumerate_snd {A : Type} (l : list A) (k : nat) :
  map snd (combine (seq k (List.length l)) l) = l.
Proof.
  revert k. induction l as [ | a l IH]; intros k; simpl; [reflexivity | now rewrite IH].
Qed.

Lemma monthly_mean_dates (col : Waves.observation -> np_float)
      (ts : list Waves.observation) :
  Monthly.table_dates (Waves.monthly_mean col ts) = Waves.group_dates ts.
Proof.
  unfold Monthly.table_dates, Waves.monthly_mean. rewrite map_map. simpl.
  rewrite <- (enumerate_snd (Waves.group_dates ts) 0) at 3.
  apply map_ext. now intros [i [y m]].
Qed.

Lemma monthly_mean_labels (col : Waves.observation -> np_float)
      (ts : list Waves.observation) :
  map Monthly.label (Waves.monthly_mean col ts)
  = seq 0 (List.length (Waves.group_dates ts)).
Proof.
  unfold Waves.monthly_mean. rewrite map_map. simpl.
  apply enumerate_fst.
Qed.

(** X18: the monthly table built from the altimeter records has one row for
    each month in which there is a record and none for the other months;
    its rows are in strictly increasing date order and labelled 0, 1, 2,
    ... *)
Theorem monthly_mean_rows (col : Waves.observation -> np_float)
        (ts : list Waves.observation) :
  StronglySorted Waves.date_lt (Monthly.table_dates (Waves.monthly_mean col ts))
  /\ NoDup (Monthly.table_dates (Waves.monthly_mean col ts))
  /\ map Monthly.label (Waves.monthly_mean col ts)
     = seq 0 (List.length (Waves.monthly_mean col ts))
  /\ (forall d, In d (Monthly.table_dates (Waves.monthly_mean col ts))
                <-> exists o, In o ts /\ Waves.date_of o = d).
Proof.
  rewrite monthly_mean_dates, monthly_mean_labels.
  pose proof (group_dates_sorted ts) as Hsorted.
  split; [exact Hsorted | ]. split; [ | split].
  - induction Hsorted as [ | d ds Hs IH Hall]; constructor; [ | exact IH].
    intros Hin. rewrite Forall_forall in Hall. specialize (Hall d Hin).
    unfold Waves.date_lt in Hall. rewrite date_ltb_spec in Hall. lia.
  - f_equal. rewrite <- (length_map Monthly.label), monthly_mean_labels.
    now rewrite length_seq.
  - intros d. apply In_group_dates.
Qed.






(** * Current speed from the radar components *)




Lemma broadcast_axis_same (n : nat) : Radar.broadcast_axis n n = Some n.
Proof. unfold Radar.broadcast_axis. now rewrite Nat.eqb_refl. Qed.

Lemma axis_index_in_range (n i : nat) : (i < n)%nat -> Radar.axis_index n i = i.
Proof.
  intros Hi. unfold Radar.axis_index.
  destruct (Nat.eqb_spec n 1) as [-> | _]; [lia | reflexivity].
Qed.

(** X22: on two component arrays of one shape, the speed array has that
    shape and holds at every grid point the speed of the two components of
    that point. *)
Theorem sData_pointwise (uData vData : Radar.ndarray)
        (Hshape : Radar.shape uData = Radar.shape vData) :
  exists s,
    Radar.sData uData vData = Returns s
    /\ Radar.shape s = Radar.shape uData
    /\ (forall t i j nt ni nj,
           Radar.shape uData = (nt, ni, nj) ->
           (t < nt)%nat -> (i < ni)%nat -> (j < nj)%nat ->
           Radar.item s t i j
           = Radar.speed (Radar.item uData t i j) (Radar.item vData t i j)).
Proof.
  unfold Radar.sData, Radar.array_add. cbn [Radar.array_power Radar.shape].
  rewrite <- Hshape. destruct (Radar.shape uData) as [[nt ni] nj] eqn:Hu.
  rewrite !broadcast_axis_same. cbn [bind].
  eexists. split; [reflexivity | ]. split; [reflexivity | ].
  intros t i j nt' ni' nj' Heq Ht Hi Hj. injection Heq as <- <- <-.
  cbn [Radar.array_power Radar.item].
  rewrite !axis_index_in_range by assumption. reflexivity.
Qed.

Lemma sData_pointwise_witness :
  exists s,
    Radar.sData
      {| Radar.shape := (1, 1, 1)%nat;
         Radar.item := fun _ _ _ => Radar.Data (Fin 3) |}
      {| Radar.shape := (1, 1, 1)%nat;
         Radar.item := fun _ _ _ => Radar.Data (Fin 4) |} = Returns s
    /\ Radar.shape s = (1, 1, 1)%nat.
Proof.
  destruct (sData_pointwise
      {| Radar.shape := (1, 1, 1)%nat;
         Radar.item := fun _ _ _ => Radar.Data (Fin 3) |}
      {| Radar.shape := (1, 1, 1)%nat;
         Radar.item := fun _ _ _ => Radar.Data (Fin 4) |} eq_refl)
    as (s & Hs & Hshape & _).
  now exists s.
Defined.

(** * The SAM index table *)

Lemma stack_rows (sam_data : list SAM.line) :
  map (fun r => (Monthly.year r, Monthly.month r, Monthly.Value r))
      (SAM.stack sam_data)
  = flat_map SAM.kept sam_data.
Proof.
  unfold SAM.stack. rewrite map_map. cbn [Monthly.year Monthly.month Monthly.Value].
  rewrite <- (enumerate_snd (flat_map SAM.kept sam_data) 0) at 3.
  apply map_ext. now intros [i [[y m] v]].
Qed.

Lemma In_cells (l : SAM.line) (y m : Z) (v : np_float) :
  In (y, m, v) (SAM.cells l)
  <-> y = SAM.year l /\ (1 <= m <= 12)%Z /\ v = SAM.cell l (Z.to_nat (m - 1)).
Proof.
  unfold SAM.cells. rewrite in_map_iff. split.
  - intros (k & Heq & Hk). apply in_seq in Hk. injection Heq as <- <- <-.
    split; [reflexivity | ]. split; [lia | ]. f_equal. lia.
  - intros (-> & Hm & ->). exists (Z.to_nat (m - 1)). split.
    + f_equal. f_equal. lia.
    + apply in_seq. lia.
Qed.

Lemma kept_length (l : SAM.line) : (List.length (SAM.kept l) <= 12)%nat.
Proof.
  unfold SAM.kept.
  pose proof (filter_length_le (fun c => notna (snd c)) (SAM.cells l)) as H.
  unfold SAM.cells in *. rewrite length_map, length_seq in H. exact H.
Qed.

Lemma kept_complete (l : SAM.line) :
  (forall k, (k < 12)%nat -> SAM.cell l k <> NaN) -> SAM.kept l = SAM.cells l.
Proof.
  intros Hfull. unfold SAM.kept.
  apply forallb_filter_id. apply forallb_forall. intros [[y m] v] Hin.
  apply In_cells in Hin. destruct Hin as (_ & Hm & ->). simpl.
  specialize (Hfull (Z.to_nat (m - 1))).
  destruct (SAM.cell l (Z.to_nat (m - 1))); try reflexivity.
  exfalso. apply Hfull; [lia | reflexivity].
Qed.

(** X23: stacking the SAM table gives one row for each monthly cell that
    holds a value and none for the empty cells: a row (year, month, value)
    is in the result exactly when some line of that year holds that value,
    not NaN, in the column of that month (1 to 12).  The rows are labelled
    0, 1, 2, ...; there are at most twelve per line, and exactly twelve per
    line when no cell is empty. *)
Theorem stack_keeps_values (sam_data : list SAM.line) :
  (forall y m v,
      In (y, m, v) (map (fun r => (Monthly.year r, Monthly.month r, Monthly.Value r))
                        (SAM.stack sam_data))
      <-> exists l, In l sam_data /\ SAM.year l = y /\ (1 <= m <= 12)%Z
                    /\ v = SAM.cell l (Z.to_nat (m - 1)) /\ v <> NaN)
  /\ map Monthly.label (SAM.stack sam_data)
     = seq 0 (List.length (SAM.stack sam_data))
  /\ (List.length (SAM.stack sam_data) <= 12 * List.length sam_data)%nat
  /\ ((forall l k, In l sam_data -> (k < 12)%nat -> SAM.cell l k <> NaN) ->
      List.length (SAM.stack sam_data) = (12 * List.length sam_data)%nat).
Proof.
  assert (List.length (SAM.stack sam_data)
          = List.length (flat_map SAM.kept sam_data)) as Hlen.
  { rewrite <- stack_rows. now rewrite length_map. }
  split; [ | split; [ | split]].
  - intros y m v. rewrite stack_rows, in_flat_map. split.
    + intros (l & Hl & Hin). unfold SAM.kept in Hin. apply filter_In in Hin.
      destruct Hin as [Hin Hna]. apply In_cells in Hin.
      destruct Hin as (-> & Hm & Hv). exists l.
      repeat split; try assumption; try lia.
      intros ->. discriminate.
    + intros (l & Hl & <- & Hm & Hv & Hna). exists l. split; [assumption | ].
      unfold SAM.kept. apply filter_In. split.
      * apply In_cells. tauto.
      * simpl. destruct v; try reflexivity. now contradiction Hna.
  - rewrite Hlen. unfold SAM.stack. rewrite map_map.
    cbn [Monthly.label]. apply enumerate_fst.
  - rewrite Hlen. clear Hlen.
    induction sam_data as [ | l ls IH]; [simpl; lia | ].
    cbn [flat_map]. rewrite length_app. cbn [List.length].
    pose proof (kept_length l). lia.
  - intros Hfull. rewrite Hlen. clear Hlen.
    induction sam_data as [ | l ls IH]; [reflexivity | ].
    cbn [flat_map]. rewrite length_app. cbn [List.length].
    rewrite IH by (intros l' k Hl'; apply Hfull; now right).
    rewrite kept_complete by (intros k Hk; apply Hfull; [now left | assumption]).
    unfold SAM.cells. rewrite length_map, length_seq. lia.
Qed.

(** * From the tables to one correlation *)




